(** * relax_fit: the chi-squared target function of relaxation curve fitting

    A shallow embedding of [target_functions/relax_fit.c], the C extension
    module that the optimisers of relax call: [setup] stores the problem in
    file-scope variables, [func] scales the parameters, back-calculates the
    peak intensities and returns the chi-squared value, [dfunc] and [d2func]
    are the gradient and Hessian entry points, [back_calc_I] hands the
    back-calculated intensities to Python.

    C [double]s are IEEE-754 binary64 numbers ([spec_float] with the
    operations of [SpecFloat] at precision 53), C arrays are lists accessed
    by index, and an access outside an array, which C leaves undefined, makes
    the embedded function stop with [None].

    An entry point is embedded from the point where its arguments have been
    parsed: a call whose arguments do not fit the format string returns NULL
    before any of the code below runs. Sequences are sequences of Python
    floats. *)

From Stdlib Require Import ZArith Bool Lia.
From Stdlib Require Import Floats.SpecFloat.
From stdpp Require Import base option list.

Local Open Scope Z_scope.

(** ** C doubles *)

Module Double.

Definition prec : Z := 53.
Definition emax : Z := 1024.

Definition double : Type := spec_float.

Definition add : double -> double -> double := SFadd prec emax.
Definition sub : double -> double -> double := SFsub prec emax.
Definition mul : double -> double -> double := SFmul prec emax.
Definition div : double -> double -> double := SFdiv prec emax.
Definition opp : double -> double := SFopp.

(** The literals of the source and of the examples below. *)
Definition zero : double := S754_zero false.
Definition one : double := S754_finite false 4503599627370496 (-52).
Definition minus_one : double := S754_finite true 4503599627370496 (-52).
Definition two : double := S754_finite false 4503599627370496 (-51).
Definition three : double := S754_finite false 6755399441055744 (-51).
Definition quarter : double := S754_finite false 4503599627370496 (-54).
Definition nan : double := S754_nan.
Definition infinity : double := S754_infinity false.

(** [tiny] is [2^-600]: a normal double whose square, [2^-1200], is below
    the smallest subnormal, [2^-1074]. *)
Definition tiny : double := S754_finite false 4503599627370496 (-652).

(** A well-formed binary64 number. *)
Definition valid (x : double) : bool := valid_binary prec emax x.


(** Neither an infinity nor a NaN. *)
Definition is_finite (x : double) : bool :=
  match x with S754_zero _ | S754_finite _ _ _ => true | _ => false end.

(** Not a zero of either sign. *)
Definition is_nonzero (x : double) : bool :=
  match x with S754_zero _ => false | _ => true end.

(** The sign bit is clear, or the value is a NaN. *)
Definition sign_clear (x : double) : bool :=
  match x with
  | S754_zero s | S754_infinity s | S754_finite s _ _ => negb s
  | S754_nan => true
  end.

#[global] Instance double_eq_dec : EqDecision double.
Proof. solve_decision. Defined.

#[global] Instance double_inhabited : Inhabited double := populate zero.

End Double.

Import Double.

(** ** C arrays and loops *)

(** [a[i]] read and [a[i] = v] written; outside the array C gives no meaning
    to either, and the embedding stops with [None]. *)
Definition load (a : list double) (i : nat) : option double := a !! i.

Definition store (a : list double) (i : nat) (v : double) : option (list double) :=
  if decide (i < length a)%nat then Some (<[i:=v]> a) else None.

(** [for_loop n i body s] runs [body i], [body (i+1)], ... [n] times. *)
Fixpoint for_loop {St : Type} (n i : nat) (body : nat -> St -> option St) (s : St)
  : option St :=
  match n with
  | O => Some s
  | S n' => s' ← body i s; for_loop n' (S i) body s'
  end.

(** [for (i = 0; i < n; i++) body] with [n] a C [int]: no iteration when
    [n <= 0]. *)
Definition for_int {St : Type} (n : Z) (body : nat -> St -> option St) (s : St)
  : option St :=
  for_loop (Z.to_nat n) 0 body s.

(** ** Python objects at the boundary *)

(** The objects the module receives and builds, and the [PyObject *] that
    points to one or is NULL. A list slot is such a pointer: [PyList_New]
    leaves it NULL until [PyList_SetItem] fills it; an entry point that
    returns NULL tells the interpreter that the call failed. *)
Inductive PyObject : Type :=
  | Py_None
  | PyFloat (d : double)
  | PyList (slots : list PyObject_ptr)
with PyObject_ptr : Type :=
  | NULL
  | Ptr (o : PyObject).

(** A sequence argument holds Python floats; [PySequence_GetItem] is NULL
    ([None]) past its end. *)
Definition PySequence_GetItem (o : list double) (i : nat) : option double := o !! i.

(** [PyFloat_AsDouble] answers -1.0 for an element it cannot convert, here a
    NULL one; the module never looks at the pending error. *)
Definition PyFloat_AsDouble (element : option double) : double :=
  default minus_one element.

(** [PyList_New(len)] is NULL for a negative [len]. *)
Definition PyList_New (len : Z) : PyObject_ptr :=
  if len <? 0 then NULL else Ptr (PyList (replicate (Z.to_nat len) NULL)).

(** [PyList_SetItem(list, i, item)] fills slot [i] of a list; on another
    object it reports an error and stores nothing; a NULL [list] is
    dereferenced, which C leaves undefined. *)
Definition PyList_SetItem (l : PyObject_ptr) (i : nat) (item : PyObject_ptr)
  : option PyObject_ptr :=
  match l with
  | Ptr (PyList slots) => Some (Ptr (PyList (<[i:=item]> slots)))
  | Ptr _ => Some l
  | NULL => None
  end.

(** ** The file-scope variables *)

Record globals : Type := Globals {
  num_params : Z;
  num_times : Z;
  params : list double;
  values : list double;
  sd : list double;
  relax_times : list double;
  scaling_matrix : list double;
  back_calc : list double
}.

Definition set_params (g : globals) (a : list double) : globals :=
  Globals (num_params g) (num_times g) a (values g) (sd g) (relax_times g)
          (scaling_matrix g) (back_calc g).
Definition set_values (g : globals) (a : list double) : globals :=
  Globals (num_params g) (num_times g) (params g) a (sd g) (relax_times g)
          (scaling_matrix g) (back_calc g).
Definition set_sd (g : globals) (a : list double) : globals :=
  Globals (num_params g) (num_times g) (params g) (values g) a (relax_times g)
          (scaling_matrix g) (back_calc g).
Definition set_relax_times (g : globals) (a : list double) : globals :=
  Globals (num_params g) (num_times g) (params g) (values g) (sd g) a
          (scaling_matrix g) (back_calc g).
Definition set_scaling_matrix (g : globals) (a : list double) : globals :=
  Globals (num_params g) (num_times g) (params g) (values g) (sd g)
          (relax_times g) a (back_calc g).
Definition set_back_calc (g : globals) (a : list double) : globals :=
  Globals (num_params g) (num_times g) (params g) (values g) (sd g)
          (relax_times g) (scaling_matrix g) a.

(** The variables when the module is loaded: static storage is zeroed, so
    the counts are 0, the pointers NULL (no element to access) and
    [back_calc], an array whose declared length [n] comes from a header that
    is not among the sources, holds [n] zeros. *)
Definition initial_globals (n : nat) : globals :=
  Globals 0 0 [] [] [] [] [] (replicate n zero).

(** The arguments [setup] parses with the format "iiOOOO". *)
Record setup_args : Type := SetupArgs {
  num_params_arg : Z;
  num_times_arg : Z;
  values_arg : list double;
  sd_arg : list double;
  relax_times_arg : list double;
  scaling_matrix_arg : list double
}.

(** ** The module *)

Definition square (x : double) : double := mul x x.

Section RelaxFit.

(** [exp] of the C library. *)
Variable exp : double -> double.

(** The double held by the Python float that [Py_BuildValue("f", x)] builds
    from the C double [x]. The conversion is CPython's and the C calling
    convention's, not this module's. *)
Variable as_float_format : double -> double.

(** What a block fresh from [malloc] holds at each index. Allocation is
    taken to succeed; a count that is not positive gives a block with no
    cell to access. *)
Variable heap_junk : nat -> double.

(** What the uninitialised local pointer of [dfunc] happens to address. *)
Variable wild : list double.

Definition Py_BuildValue_f (x : double) : PyObject_ptr :=
  Ptr (PyFloat (as_float_format x)).

Definition malloc (n : Z) : list double := heap_junk <$> seq 0 (Z.to_nat n).

(** Modelled from the spec: [exponential.h] and the function it declares are
    not among the sources. Section 4.2: for the canonical two-parameter
    model [back_calc[i] = params[0] * exp(-params[1] * times[i])], written
    into the [back_calc] buffer in place, for each of the [num_times] time
    points. *)
Definition exponential (params relax_times back_calc : list double) (num_times : Z)
  : option (list double) :=
  for_int num_times (fun i back_calc =>
    p0 ← load params 0;
    p1 ← load params 1;
    t ← load relax_times i;
    store back_calc i (mul p0 (exp (mul (opp p1) t)))) back_calc.

(** Modelled from the spec: [c_chi2.h] and the function it declares are not
    among the sources. Section 4.3:
    [sum_{i=0..n-1} ((values[i] - back_calc[i]) / sd[i])^2], reduced in
    index-ascending order; written as the loop over [i] that accumulates
    into a local started at 0.0. *)
Definition chi2 (values sd back_calc : list double) (num_times : Z) : option double :=
  for_int num_times (fun i chi2 =>
    v ← load values i;
    b ← load back_calc i;
    s ← load sd i;
    Some (add chi2 (square (div (sub v b) s)))) zero.

(** [setup]: the counts are stored, five arrays allocated, and the sequences
    copied element by element up to the counts. Nothing is compared with
    anything, and [Py_None] is returned. *)
Definition setup (g : globals) (a : setup_args) : option (globals * PyObject_ptr) :=
  let g := Globals (num_params_arg a) (num_times_arg a)
             (malloc (num_params_arg a))
             (malloc (num_times_arg a)) (malloc (num_times_arg a))
             (malloc (num_times_arg a))
             (malloc (num_params_arg a)) (back_calc g) in
  g ← for_int (num_params g) (fun i g =>
    let element := PySequence_GetItem (scaling_matrix_arg a) i in
    set_scaling_matrix g <$> store (scaling_matrix g) i (PyFloat_AsDouble element)) g;
  g ← for_int (num_times g) (fun i g =>
    let element := PySequence_GetItem (values_arg a) i in
    g ← set_values g <$> store (values g) i (PyFloat_AsDouble element);
    let element := PySequence_GetItem (sd_arg a) i in
    g ← set_sd g <$> store (sd g) i (PyFloat_AsDouble element);
    let element := PySequence_GetItem (relax_times_arg a) i in
    set_relax_times g <$> store (relax_times g) i (PyFloat_AsDouble element)) g;
  Some (g, Ptr Py_None).

(** The body of the first loop of [func]: [params[i]] is converted from
    element [i] of the argument, then multiplied by [scaling_matrix[i]]. *)
Definition scale_param (params_arg : list double) (i : nat) (g : globals)
  : option globals :=
  let element := PySequence_GetItem params_arg i in
  g ← set_params g <$> store (params g) i (PyFloat_AsDouble element);
  p ← load (params g) i;
  s ← load (scaling_matrix g) i;
  set_params g <$> store (params g) i (mul p s).

(** [func]: the chi-squared value at the parameters [params_arg]. *)
Definition func (g : globals) (params_arg : list double)
  : option (globals * PyObject_ptr) :=
  g ← for_int (num_params g) (scale_param params_arg) g;
  bc ← exponential (params g) (relax_times g) (back_calc g) (num_times g);
  let g := set_back_calc g bc in
  c ← chi2 (values g) (sd g) (back_calc g) (num_times g);
  Some (g, Py_BuildValue_f c).

(** [dfunc]: its [params] is a local pointer that is never assigned (the
    argument is parsed and dropped, the array [aaa] is unused), the
    intensities are back-calculated from whatever it addresses, and NULL is
    returned. *)
Definition dfunc (g : globals) (params_arg : list double)
  : option (globals * PyObject_ptr) :=
  let params := wild in
  bc ← exponential params (relax_times g) (back_calc g) (num_times g);
  Some (set_back_calc g bc, NULL).

(** [d2func]: [Py_BuildValue("f", 0.0)]. *)
Definition d2func (g : globals) (args : list double)
  : option (globals * PyObject_ptr) :=
  Some (g, Py_BuildValue_f zero).

(** [back_calc_I]: a new list of [num_times] slots, filled from
    [back_calc]. *)
Definition back_calc_I (g : globals) : option (globals * PyObject_ptr) :=
  let back_calc_py := PyList_New (num_times g) in
  back_calc_py ← for_int (num_times g) (fun i back_calc_py =>
    b ← load (back_calc g) i;
    PyList_SetItem back_calc_py i (Py_BuildValue_f b)) back_calc_py;
  Some (g, back_calc_py).

End RelaxFit.

(** ** Vocabulary of the specification *)

(** The model intensities at the time points [times]: amplitude [p0], rate
    [p1]. *)
Definition exponential_curve (exp : double -> double) (p0 p1 : double)
    (times : list double) : list double :=
  (fun t => mul p0 (exp (mul (opp p1) t))) <$> times.

(** The terms [((values[i] - back_calc[i]) / sd[i])^2], by index. *)
Definition chi2_terms (values sd back_calc : list double) : list double :=
  zip_with (fun vs b => square (div (sub vs.1 b) vs.2)) (zip values sd) back_calc.

(** Following the spec's words: the sum of the first [n] terms, taken from
    index 0 upwards, [((0 + t0) + t1) + ...]. *)
Definition chi2_ascending_sum (values sd back_calc : list double) (n : nat) : double :=
  fold_left add (take n (chi2_terms values sd back_calc)) zero.

(** A session as [setup] leaves it for a well-formed two-parameter problem:
    every array has the length its count announces, and [back_calc] has room
    for [num_times] intensities. *)
Record session_ok (g : globals) : Prop := SessionOk {
  ok_num_params : 2 <= num_params g;
  ok_num_times : 0 <= num_times g;
  ok_params : length (params g) = Z.to_nat (num_params g);
  ok_scaling_matrix : length (scaling_matrix g) = Z.to_nat (num_params g);
  ok_values : length (values g) = Z.to_nat (num_times g);
  ok_sd : length (sd g) = Z.to_nat (num_times g);
  ok_relax_times : length (relax_times g) = Z.to_nat (num_times g);
  ok_back_calc : (Z.to_nat (num_times g) <= length (back_calc g))%nat
}.

(** The sequences given to [setup] are at least as long as the counts. *)
Record args_cover_counts (a : setup_args) : Prop := ArgsCoverCounts {
  cover_values : (Z.to_nat (num_times_arg a) <= length (values_arg a))%nat;
  cover_sd : (Z.to_nat (num_times_arg a) <= length (sd_arg a))%nat;
  cover_relax_times : (Z.to_nat (num_times_arg a) <= length (relax_times_arg a))%nat;
  cover_scaling_matrix :
    (Z.to_nat (num_params_arg a) <= length (scaling_matrix_arg a))%nat
}.

(** What the copy loops of [setup] leave in an array of [n] cells. *)
Definition copied (n : Z) (arg : list double) : list double :=
  (fun i => PyFloat_AsDouble (PySequence_GetItem arg i)) <$> seq 0 (Z.to_nat n).

(** The variables after [setup], whatever it is given. *)
Definition constructed (heap_junk : nat -> double) (g : globals) (a : setup_args)
  : globals :=
  Globals (num_params_arg a) (num_times_arg a)
    (malloc heap_junk (num_params_arg a))
    (copied (num_times_arg a) (values_arg a))
    (copied (num_times_arg a) (sd_arg a))
    (copied (num_times_arg a) (relax_times_arg a))
    (copied (num_params_arg a) (scaling_matrix_arg a))
    (back_calc g).

(** The variables after [func] on a session that is [session_ok]: the scaled
    parameters in [params], the model curve over the first [num_times] cells
    of [back_calc]. *)
Definition evaluated (exp : double -> double) (g : globals) (raw : list double)
  : globals :=
  let scaled := zip_with mul raw (scaling_matrix g) in
  set_back_calc (set_params g scaled)
    (take (Z.to_nat (num_times g))
       (exponential_curve exp (scaled !!! 0%nat) (scaled !!! 1%nat) (relax_times g))
     ++ drop (Z.to_nat (num_times g)) (back_calc g)).

(** ** Instances for running the module *)

(** A stand-in for the C library's [exp] that is right where C fixes the
    value, [exp(+0) = exp(-0) = 1], and answers NaN everywhere else, so that
    an example which evaluated it elsewhere would show. *)
Definition exp_at_zero (x : double) : double :=
  if is_nonzero x then nan else one.

(** The "f" conversion taken as the identity, a fresh block full of 1.0. *)
Definition run_setup := setup (fun _ => one).
Definition run_func := func exp_at_zero (fun x => x).
Definition run_back_calc_I := back_calc_I (fun x => x).

(** Three intensities 3, 3, 2 with deviations 1, 1, 2, all measured at time
    0, and a scaling of 1 and 2. *)
Definition args_demo : setup_args :=
  SetupArgs 2 3 [three; three; two] [one; one; two] [zero; zero; zero] [one; two].

Definition session_demo : globals :=
  constructed (fun _ => one) (initial_globals 8) args_demo.

(** The same sequences with a count of two time points. *)
Definition args_surplus : setup_args :=
  SetupArgs 2 2 [three; three; two] [one; one; two] [zero; zero; zero] [one; two].

(** One point, intensity 1, standard deviation 0. *)
Definition args_zero_sd : setup_args :=
  SetupArgs 2 1 [one] [zero] [zero] [one; one].

Definition session_zero_sd : globals :=
  constructed (fun _ => one) (initial_globals 8) args_zero_sd.

(** One point whose intensity is a NaN. *)
Definition args_nan : setup_args :=
  SetupArgs 2 1 [nan] [one] [zero] [one; one].

Definition session_nan : globals :=
  constructed (fun _ => one) (initial_globals 8) args_nan.

(** A second problem, set up after [args_demo]: one point, intensity 1,
    standard deviation 1. *)
Definition args_other : setup_args :=
  SetupArgs 2 1 [one] [one] [zero] [one; one].


(** One point, intensity [2^-600], standard deviation 1. *)
Definition args_tiny : setup_args :=
  SetupArgs 2 1 [tiny] [one] [zero] [one; one].

Definition session_tiny : globals :=
  constructed (fun _ => one) (initial_globals 8) args_tiny.

(** ** Vocabulary of the further properties *)

(** The first [n] elements of a sequence, with -1.0 in the place of each one
    that the sequence does not have. *)
Definition padded (n : nat) (arg : list double) : list double :=
  take n arg ++ replicate (n - length arg) minus_one.

(** A run of evaluations, as an optimiser makes them: [func] on each
    parameter vector in turn, the returned values dropped. *)
Fixpoint evaluate_each (exp as_float_format : double -> double) (g : globals)
    (raws : list (list double)) : option globals :=
  match raws with
  | [] => Some g
  | raw :: rest =>
      g' ← fst <$> func exp as_float_format g raw;
      evaluate_each exp as_float_format g' rest
  end.

(** [g'] holds the problem of [g]: the counts and the four arrays that
    [setup] filled are the same, and the two arrays that evaluations write,
    [params] and [back_calc], have kept their lengths. *)
Record same_problem (g g' : globals) : Prop := SameProblem {
  same_num_params : num_params g' = num_params g;
  same_num_times : num_times g' = num_times g;
  same_values : values g' = values g;
  same_sd : sd g' = sd g;
  same_relax_times : relax_times g' = relax_times g;
  same_scaling_matrix : scaling_matrix g' = scaling_matrix g;
  same_params_length : length (params g') = length (params g);
  same_back_calc_length : length (back_calc g') = length (back_calc g)
}.

(** [session_demo] after a call of [dfunc] whose stray pointer addresses
    the doubles 3 and 2. *)
Definition session_after_dfunc : globals :=
  set_back_calc session_demo
    [three; three; three; zero; zero; zero; zero; zero].

(** Three time points announced, sequences of two elements (one for the
    scaling). *)
Definition args_short : setup_args :=
  SetupArgs 2 3 [three; two] [one; two] [zero; zero] [two].

(** A concrete session is [session_ok], or concrete arguments
    [args_cover_counts], by evaluation of the lengths and counts. *)
Ltac by_computation := split; vm_compute; first [done | lia].

(** ** Examples of the arithmetic *)

Example mul_two_three : mul two three = S754_finite false 6755399441055744 (-50).
Proof. vm_compute. reflexivity. Qed.

Example square_tiny_underflows : square tiny = zero /\ valid tiny = true.
Proof. vm_compute. split; reflexivity. Qed.

Example div_by_zero_is_infinity : div one zero = infinity.
Proof. vm_compute. reflexivity. Qed.

(** ** Lemmas on loops and arrays *)

Section Loops.
Context {St : Type}.
Implicit Types (body : nat -> St -> option St) (s : St).

Lemma for_loop_succ n i body s :
  for_loop (S n) i body s = s' ← body i s; for_loop n (S i) body s'.
Proof. reflexivity. Qed.

(** A loop whose body keeps the invariant [Inv], and does not run into
    undefined behaviour while it holds, ends, with the invariant at the
    final index. *)
Lemma for_loop_invariant (Inv : nat -> St -> Prop) n i body s :
  Inv i s ->
  (forall j t, (i <= j < i + n)%nat -> Inv j t ->
     exists t', body j t = Some t' /\ Inv (S j) t') ->
  exists s', for_loop n i body s = Some s' /\ Inv (i + n)%nat s'.
Proof.
  revert i s. induction n as [|n IH]; intros i s Hi Hstep.
  - exists s. rewrite Nat.add_0_r. done.
  - destruct (Hstep i s) as (t & Ht & Hinv); [lia | done |].
    destruct (IH (S i) t) as (s' & Hs' & Hfin); [done | |].
    + intros j u Hj. apply Hstep. lia.
    + exists s'. rewrite for_loop_succ, Ht. simpl.
      replace (i + S n)%nat with (S i + n)%nat by lia. done.
Qed.

End Loops.

Lemma store_Some a i v :
  (i < length a)%nat -> store a i v = Some (<[i:=v]> a).
Proof. intros. unfold store. by rewrite decide_True. Qed.

(** Writing [x] at index [j] of an array whose first [j] cells already hold
    the first [j] elements of [new] extends that prefix by one. *)
Lemma insert_take_drop {A} (new old : list A) j x :
  new !! j = Some x -> (j < length old)%nat ->
  <[j:=x]> (take j new ++ drop j old) = take (S j) new ++ drop (S j) old.
Proof.
  intros Hx Hj.
  assert (j < length new)%nat by (by eapply lookup_lt_Some).
  rewrite insert_app_r_alt; rewrite length_take; [|lia].
  replace (j - j `min` length new)%nat with 0%nat by lia.
  destruct (drop j old) as [|y rest] eqn:Hd.
  { apply (f_equal length) in Hd. rewrite length_drop in Hd. simpl in Hd. lia. }
  simpl. erewrite take_S_r by done. rewrite <- app_assoc. simpl.
  do 2 f_equal. replace (S j) with (j + 1)%nat by lia.
  by rewrite <- drop_drop, Hd.
Qed.

Lemma fold_left_take_S {A B} (f : A -> B -> A) (l : list B) j x a :
  l !! j = Some x -> fold_left f (take (S j) l) a = f (fold_left f (take j l) a) x.
Proof. intros Hx. erewrite take_S_r by done. by rewrite fold_left_app. Qed.

(** ** Signs and zeros of the arithmetic *)

Lemma binary_round_aux_sign_clear mx ex lx :
  sign_clear (binary_round_aux prec emax false mx ex lx) = true.
Proof.
  unfold binary_round_aux.
  destruct (shr_fexp prec emax mx ex lx) as [mrs e'].
  destruct (shr_fexp prec emax _ e' loc_Exact) as [mrs' e''].
  destruct (shr_m mrs') as [|m|m]; [done | | done].
  by destruct (e'' <=? emax - prec).
Qed.

Lemma square_sign_clear x : sign_clear (square x) = true.
Proof.
  destruct x as [s|s| |s m e]; unfold square, mul; simpl;
    rewrite ?xorb_nilpotent; try done.
  apply binary_round_aux_sign_clear.
Qed.

Lemma add_sign_clear x y :
  sign_clear x = true -> sign_clear y = true -> sign_clear (add x y) = true.
Proof.
  destruct x as [[]|[]| |[] mx ex], y as [[]|[]| |[] my ey]; simpl; try done.
  intros _ _. unfold add, SFadd, binary_normalize, binary_round. simpl.
  destruct (shl_align _ _ _) as [mz ez]. apply binary_round_aux_sign_clear.
Qed.



(** Dividing by a zero never gives a finite value: an infinity, or a NaN
    for [0/0] and for a NaN on top. *)
Lemma div_zero_not_finite x z :
  is_nonzero z = false -> is_finite (div x z) = false.
Proof. destruct z as [s|s| |s m e]; [|done..]. by destruct x as [sx|sx| |sx mx ex]. Qed.

Lemma square_not_finite x : is_finite x = false -> is_finite (square x) = false.
Proof. by destruct x as [sx|sx| |sx m e]. Qed.

(** Among values with a clear sign bit an infinity or a NaN, once in a sum,
    stays: there is no infinity of the other sign to cancel it into a
    finite value. *)
Lemma add_not_finite x y :
  sign_clear x = true -> sign_clear y = true ->
  is_finite x = false \/ is_finite y = false ->
  is_finite (add x y) = false.
Proof.
  destruct x as [[]|[]| |[] mx ex], y as [[]|[]| |[] my ey]; simpl; try done;
    intros _ _ [|]; done.
Qed.

(** ** The ascending sum *)

Lemma chi2_ascending_sum_sign_clear vs sds bc n :
  sign_clear (chi2_ascending_sum vs sds bc n) = true.
Proof.
  unfold chi2_ascending_sum.
  assert (Hterms : Forall (fun t => sign_clear t = true) (take n (chi2_terms vs sds bc))).
  { apply Forall_take. unfold chi2_terms. apply Forall_forall. intros t Ht.
    apply list_elem_of_lookup in Ht as [i Hi].
    apply lookup_zip_with_Some in Hi as (vs' & b & -> & _ & _).
    apply square_sign_clear. }
  assert (Hz : sign_clear zero = true) by done.
  revert Hz. generalize zero.
  induction Hterms as [|t ts Ht _ IH]; intros acc Hacc; simpl; [done|].
  apply IH. by apply add_sign_clear.
Qed.


(** The sum over one more index adds that index's term on the right. *)
Lemma chi2_ascending_sum_S vs sds bc k v s b :
  vs !! k = Some v -> sds !! k = Some s -> bc !! k = Some b ->
  chi2_ascending_sum vs sds bc (S k)
  = add (chi2_ascending_sum vs sds bc k) (square (div (sub v b) s)).
Proof.
  intros Hv Hs Hb. unfold chi2_ascending_sum. apply fold_left_take_S.
  unfold chi2_terms. rewrite !lookup_zip_with. by rewrite Hv, Hs, Hb.
Qed.

(** A zero standard deviation within the count makes the sum an infinity
    or a NaN. *)
Lemma chi2_ascending_sum_zero_sd vs sds bc n i z :
  (i < n)%nat -> (n <= length vs)%nat -> (n <= length sds)%nat ->
  (n <= length bc)%nat ->
  sds !! i = Some z -> is_nonzero z = false ->
  is_finite (chi2_ascending_sum vs sds bc n) = false.
Proof.
  intros Hi Hv Hs Hb Hz Hzero. induction n as [|n IH]; [lia|].
  destruct (lookup_lt_is_Some_2 vs n) as [v Hvn]; [lia|].
  destruct (lookup_lt_is_Some_2 sds n) as [s' Hsn]; [lia|].
  destruct (lookup_lt_is_Some_2 bc n) as [b Hbn]; [lia|].
  rewrite (chi2_ascending_sum_S _ _ _ _ _ _ _ Hvn Hsn Hbn).
  apply add_not_finite;
    [apply chi2_ascending_sum_sign_clear | apply square_sign_clear |].
  destruct (decide (i = n)) as [->|Hne].
  - right. assert (s' = z) as -> by congruence.
    by apply square_not_finite, div_zero_not_finite.
  - left. apply IH; lia.
Qed.

(** ** The model evaluator and the reducer *)

Section Evaluation.
Variable exp : double -> double.

(** The loop of [exponential] writes the model curve over the first
    [num_times] cells of [back_calc] and leaves the rest. *)
Lemma exponential_curve_written ps times bc (n : Z) p0 p1 :
  ps !! 0%nat = Some p0 -> ps !! 1%nat = Some p1 ->
  (Z.to_nat n <= length times)%nat -> (Z.to_nat n <= length bc)%nat ->
  exponential exp ps times bc n
  = Some (take (Z.to_nat n) (exponential_curve exp p0 p1 times)
          ++ drop (Z.to_nat n) bc).
Proof.
  intros Hp0 Hp1 Ht Hbc. unfold exponential, for_int.
  set (curve := exponential_curve exp p0 p1 times).
  edestruct (for_loop_invariant
    (fun j b => b = take j curve ++ drop j bc) (Z.to_nat n) 0) as (b & -> & Hb);
    [| | simpl in Hb; by rewrite Hb].
  - by rewrite take_0, drop_0.
  - intros j b Hj ->. unfold load. rewrite Hp0, Hp1. simpl.
    destruct (times !! j) as [t|] eqn:Htj; simpl.
    2: { apply lookup_ge_None in Htj. lia. }
    assert (Hc : curve !! j = Some (mul p0 (exp (mul (opp p1) t)))).
    { unfold curve, exponential_curve. by rewrite list_lookup_fmap, Htj. }
    eexists. split; [|by apply insert_take_drop; [|lia]].
    apply store_Some. rewrite length_app, length_take, length_drop.
    apply lookup_lt_Some in Hc. lia.
Qed.

(** The loop of [chi2] is the ascending sum of the terms. *)
Lemma chi2_loop_sum vs sds bc (n : Z) :
  (Z.to_nat n <= length vs)%nat -> (Z.to_nat n <= length sds)%nat ->
  (Z.to_nat n <= length bc)%nat ->
  chi2 vs sds bc n = Some (chi2_ascending_sum vs sds bc (Z.to_nat n)).
Proof.
  intros Hv Hs Hb. unfold chi2, for_int.
  edestruct (for_loop_invariant
    (fun j acc => acc = chi2_ascending_sum vs sds bc j) (Z.to_nat n) 0)
    as (c & -> & Hc); [| | simpl in Hc; by rewrite Hc].
  - done.
  - intros j acc Hj ->. unfold load.
    destruct (lookup_lt_is_Some_2 vs j) as [v Hvj]; [lia|].
    destruct (lookup_lt_is_Some_2 sds j) as [s Hsj]; [lia|].
    destruct (lookup_lt_is_Some_2 bc j) as [b Hbj]; [lia|].
    rewrite Hvj, Hbj, Hsj. simpl. eexists. split; [done|].
    by erewrite chi2_ascending_sum_S.
Qed.

End Evaluation.

(** ** The objective entry point *)

Section Objective.
Variable exp : double -> double.
Variable as_float_format : double -> double.

(** The first loop of [func] leaves [raw[i] * scaling_matrix[i]] in
    [params[i]]. *)
Lemma func_params_scaled g raw :
  length (params g) = Z.to_nat (num_params g) ->
  length (scaling_matrix g) = Z.to_nat (num_params g) ->
  length raw = Z.to_nat (num_params g) ->
  for_int (num_params g) (scale_param raw) g
  = Some (set_params g (zip_with mul raw (scaling_matrix g))).
Proof.
  intros Hp Hs Hr. unfold for_int.
  set (scaled := zip_with mul raw (scaling_matrix g)).
  assert (Hlen : length scaled = Z.to_nat (num_params g)).
  { unfold scaled. rewrite length_zip_with. lia. }
  edestruct (for_loop_invariant
    (fun j t => t = set_params g (take j scaled ++ drop j (params g)))
    (Z.to_nat (num_params g)) 0) as (t & -> & Ht).
  - rewrite take_0, drop_0. by destruct g.
  - intros j t Hj ->. unfold scale_param. simpl.
    destruct (lookup_lt_is_Some_2 raw j) as [x Hx]; [lia|].
    destruct (lookup_lt_is_Some_2 (scaling_matrix g) j) as [k Hk]; [lia|].
    unfold PySequence_GetItem, load. rewrite Hx. simpl.
    rewrite store_Some by (rewrite length_app, length_take, length_drop; lia).
    simpl. rewrite list_lookup_insert_eq
      by (rewrite length_app, length_take, length_drop; lia).
    simpl. rewrite Hk. simpl.
    rewrite store_Some
      by (rewrite length_insert, length_app, length_take, length_drop; lia).
    simpl. eexists. split; [done|]. unfold set_params. simpl. f_equal.
    rewrite list_insert_insert_eq. apply insert_take_drop; [|lia].
    unfold scaled. by rewrite lookup_zip_with, Hx, Hk.
  - simpl in Ht. rewrite Ht. do 2 f_equal.
    rewrite take_ge, drop_ge by lia. apply app_nil_r.
Qed.

(** On a session that is [session_ok], [exponential] and [chi2] succeed and
    [func] returns the converted sum with the variables [evaluated]. *)
Lemma func_evaluated g raw :
  session_ok g -> length raw = Z.to_nat (num_params g) ->
  exponential exp (zip_with mul raw (scaling_matrix g)) (relax_times g)
    (back_calc g) (num_times g) = Some (back_calc (evaluated exp g raw))
  /\ chi2 (values g) (sd g) (back_calc (evaluated exp g raw)) (num_times g)
     = Some (chi2_ascending_sum (values g) (sd g) (back_calc (evaluated exp g raw))
               (Z.to_nat (num_times g)))
  /\ func exp as_float_format g raw
     = Some (evaluated exp g raw,
             Py_BuildValue_f as_float_format
               (chi2_ascending_sum (values g) (sd g)
                  (back_calc (evaluated exp g raw)) (Z.to_nat (num_times g)))).
Proof.
  intros [] Hraw.
  set (scaled := zip_with mul raw (scaling_matrix g)).
  assert (Hlen : length scaled = Z.to_nat (num_params g)).
  { unfold scaled. rewrite length_zip_with. lia. }
  destruct (lookup_lt_is_Some_2 scaled 0) as [p0 Hp0]; [lia|].
  destruct (lookup_lt_is_Some_2 scaled 1) as [p1 Hp1]; [lia|].
  assert (Hexp : exponential exp scaled (relax_times g) (back_calc g) (num_times g)
                 = Some (back_calc (evaluated exp g raw))).
  { rewrite (exponential_curve_written exp _ _ _ _ p0 p1) by (done || lia).
    unfold evaluated. fold scaled. simpl.
    by rewrite (list_lookup_total_correct _ _ _ Hp0),
               (list_lookup_total_correct _ _ _ Hp1). }
  assert (Hchi : chi2 (values g) (sd g) (back_calc (evaluated exp g raw)) (num_times g)
     = Some (chi2_ascending_sum (values g) (sd g) (back_calc (evaluated exp g raw))
               (Z.to_nat (num_times g)))).
  { apply chi2_loop_sum; try lia. simpl.
    rewrite length_app, length_take, length_drop.
    unfold exponential_curve. rewrite length_fmap. lia. }
  split_and!; [done | done |].
  unfold func. rewrite func_params_scaled by done. simpl.
  fold scaled. rewrite Hexp. simpl.
  change (back_calc (evaluated exp g raw)) with
    (take (Z.to_nat (num_times g))
       (exponential_curve exp (scaled !!! 0%nat) (scaled !!! 1%nat) (relax_times g))
     ++ drop (Z.to_nat (num_times g)) (back_calc g)) in Hchi.
  unfold scaled in *. rewrite Hchi. done.
Qed.

Lemma evaluated_session_ok g raw :
  session_ok g -> length raw = Z.to_nat (num_params g) ->
  session_ok (evaluated exp g raw).
Proof.
  intros [] Hraw. split; simpl; try done.
  - rewrite length_zip_with. lia.
  - rewrite length_app, length_take, length_drop.
    unfold exponential_curve. rewrite length_fmap. lia.
Qed.

(** An evaluation leaves nothing behind that a later one reads. *)
Lemma evaluated_again g raw raw' :
  session_ok g -> length raw = Z.to_nat (num_params g) ->
  evaluated exp (evaluated exp g raw) raw' = evaluated exp g raw'.
Proof.
  intros [] Hraw. unfold evaluated, set_back_calc, set_params. simpl.
  do 2 f_equal.
  rewrite drop_app_length'; [done|].
  rewrite length_take. unfold exponential_curve. rewrite length_fmap. lia.
Qed.

End Objective.

(** ** Construction *)

Lemma length_copied n arg : length (copied n arg) = Z.to_nat n.
Proof. unfold copied. by rewrite length_fmap, length_seq. Qed.

Lemma lookup_copied n arg j :
  (j < Z.to_nat n)%nat ->
  copied n arg !! j = Some (PyFloat_AsDouble (PySequence_GetItem arg j)).
Proof.
  intros Hj. unfold copied. rewrite list_lookup_fmap, lookup_seq_lt by done. done.
Qed.

(** Copying from a sequence that covers the count takes its prefix. *)
Lemma copied_take n arg :
  (Z.to_nat n <= length arg)%nat -> copied n arg = take (Z.to_nat n) arg.
Proof.
  intros Hn. apply list_eq. intros j.
  destruct (decide (j < Z.to_nat n)%nat) as [Hj|Hj].
  - rewrite lookup_copied, lookup_take_lt by done.
    unfold PySequence_GetItem.
    destruct (lookup_lt_is_Some_2 arg j) as [x ->]; [lia | done].
  - rewrite lookup_take_ge by lia. apply lookup_ge_None. rewrite length_copied. lia.
Qed.

Section Construction.
Variable heap_junk : nat -> double.

Lemma length_malloc n : length (malloc heap_junk n) = Z.to_nat n.
Proof. unfold malloc. by rewrite length_fmap, length_seq. Qed.

(** [setup] never stops and never fails: it answers [Py_None] and leaves the
    variables [constructed]. *)
Lemma setup_constructed g a :
  setup heap_junk g a = Some (constructed heap_junk g a, Ptr Py_None).
Proof.
  unfold setup, for_int. simpl.
  set (np := num_params_arg a). set (nt := num_times_arg a).
  set (g0 := Globals np nt (malloc heap_junk np) (malloc heap_junk nt)
               (malloc heap_junk nt) (malloc heap_junk nt)
               (malloc heap_junk np) (back_calc g)).
  edestruct (for_loop_invariant
    (fun j t => t = set_scaling_matrix g0
       (take j (copied np (scaling_matrix_arg a)) ++ drop j (malloc heap_junk np)))
    (Z.to_nat np) 0) as (g1 & -> & Hg1).
  { by rewrite take_0, drop_0. }
  { intros j t Hj ->. simpl.
    rewrite store_Some
      by (rewrite length_app, length_take, length_drop, length_copied, length_malloc; lia).
    simpl. eexists. split; [done|]. unfold set_scaling_matrix. simpl. f_equal.
    apply insert_take_drop; [by apply lookup_copied; lia | rewrite length_malloc; lia]. }
  simpl in Hg1. rewrite take_ge, drop_ge, app_nil_r in Hg1
    by (rewrite ?length_copied, ?length_malloc; lia).
  subst g1. simpl.
  set (g1 := set_scaling_matrix g0 (copied np (scaling_matrix_arg a))).
  edestruct (for_loop_invariant
    (fun j t => t =
       set_relax_times (set_sd (set_values g1
         (take j (copied nt (values_arg a)) ++ drop j (malloc heap_junk nt)))
         (take j (copied nt (sd_arg a)) ++ drop j (malloc heap_junk nt)))
         (take j (copied nt (relax_times_arg a)) ++ drop j (malloc heap_junk nt)))
    (Z.to_nat nt) 0) as (g2 & -> & Hg2).
  { by rewrite !take_0, !drop_0. }
  { intros j t Hj ->. simpl.
    do 3 (rewrite store_Some
      by (simpl; rewrite length_app, length_take, length_drop, length_copied,
            length_malloc; lia); simpl).
    eexists. split; [done|].
    unfold set_relax_times, set_sd, set_values. simpl.
    rewrite !insert_take_drop
      by first [apply lookup_copied; lia | rewrite length_malloc; lia].
    done. }
  simpl in Hg2. rewrite !take_ge, !drop_ge, !app_nil_r in Hg2
    by (rewrite ?length_copied, ?length_malloc; lia).
  by subst g2.
Qed.

(** A well-formed two-parameter problem whose intensities fit in
    [back_calc] makes a session that [func] can evaluate. *)
Lemma constructed_session_ok g a :
  2 <= num_params_arg a -> 0 <= num_times_arg a ->
  (Z.to_nat (num_times_arg a) <= length (back_calc g))%nat ->
  session_ok (constructed heap_junk g a).
Proof.
  intros Hp Ht Hb. split; simpl; rewrite ?length_copied, ?length_malloc; done.
Qed.

End Construction.

(** ** Retrieval of the back-calculated intensities *)

Section Retrieval.
Variable as_float_format : double -> double.

Lemma back_calc_I_list g :
  0 <= num_times g -> (Z.to_nat (num_times g) <= length (back_calc g))%nat ->
  back_calc_I as_float_format g
  = Some (g, Ptr (PyList (Py_BuildValue_f as_float_format
                            <$> take (Z.to_nat (num_times g)) (back_calc g)))).
Proof.
  intros Hn Hb. unfold back_calc_I, for_int, PyList_New.
  rewrite (proj2 (Z.ltb_ge _ _)) by done.
  set (n := Z.to_nat (num_times g)).
  set (items := Py_BuildValue_f as_float_format <$> take n (back_calc g)).
  assert (Hitems : length items = n).
  { unfold items. rewrite length_fmap, length_take. lia. }
  edestruct (for_loop_invariant
    (fun j l => l = Ptr (PyList (take j items ++ drop j (replicate n NULL)))) n 0)
    as (l & -> & Hl).
  - by rewrite take_0, drop_0.
  - intros j l Hj ->. unfold load.
    destruct (lookup_lt_is_Some_2 (back_calc g) j) as [b Hbj]; [lia|].
    rewrite Hbj. simpl. eexists. split; [done|]. do 2 f_equal.
    apply insert_take_drop; [|rewrite length_replicate; lia].
    unfold items. rewrite list_lookup_fmap, lookup_take_lt by lia. by rewrite Hbj.
  - simpl in *. subst l. do 4 f_equal.
    rewrite take_ge, drop_ge, app_nil_r by (rewrite ?length_replicate; lia). done.
Qed.

(** With a negative count there is no list to fill: NULL is returned. *)
Lemma back_calc_I_negative g :
  num_times g < 0 -> back_calc_I as_float_format g = Some (g, NULL).
Proof.
  intros Hn. unfold back_calc_I, for_int, PyList_New.
  rewrite (proj2 (Z.ltb_lt _ _)) by done.
  replace (Z.to_nat (num_times g)) with 0%nat by lia. done.
Qed.

End Retrieval.

(** ** Properties of the entry points *)

(** *** The objective *)



(** The run behind the witness: the parameters 3 and 1 are scaled to 3 and
    2, every intensity is back-calculated as 3, and the chi-squared value is
    [0 + 0 + ((2 - 3) / 2)^2 = 0.25]. *)
Example func_demo :
  run_setup (initial_globals 8) args_demo = Some (session_demo, Ptr Py_None)
  /\ exists g, run_func session_demo [three; one] = Some (g, Ptr (PyFloat quarter))
       /\ params g = [three; two]
       /\ take 3 (back_calc g) = [three; three; three].
Proof. split; [vm_compute; reflexivity|]. eexists. vm_compute. done. Qed.

(** C2: for arrays of [n] elements, [n >= 1], with no zero among the
    standard deviations, [chi2] returns the sum of the terms
    [((values[i] - back_calc[i]) / sd[i])^2], and that sum is built from 0.0
    by adding the term of index 0, then of index 1, and so on upwards.
    ([chi2_loop_sum] shows that neither [n >= 1] nor the absence of zeros is
    needed.) *)
Theorem chi2_is_ascending_sum vs sds bc (n : Z) :
  1 <= n ->
  length vs = Z.to_nat n -> length sds = Z.to_nat n -> length bc = Z.to_nat n ->
  Forall (fun s => is_nonzero s = true) sds ->
  chi2 vs sds bc n = Some (chi2_ascending_sum vs sds bc (Z.to_nat n))
  /\ chi2_ascending_sum vs sds bc 0 = zero
  /\ forall k v s b,
       vs !! k = Some v -> sds !! k = Some s -> bc !! k = Some b ->
       chi2_ascending_sum vs sds bc (S k)
       = add (chi2_ascending_sum vs sds bc k) (square (div (sub v b) s)).
Proof.
  intros _ Hv Hs Hb _. split_and!.
  - apply chi2_loop_sum; lia.
  - done.
  - intros k v s b. apply chi2_ascending_sum_S.
Qed.

Lemma chi2_is_ascending_sum_witness :
  1 <= 3
  /\ length [three; three; two] = Z.to_nat 3
  /\ length [one; one; two] = Z.to_nat 3
  /\ length [three; three; three] = Z.to_nat 3
  /\ Forall (fun s => is_nonzero s = true) [one; one; two]
  /\ chi2 [three; three; two] [one; one; two] [three; three; three] 3
     = Some (chi2_ascending_sum [three; three; two] [one; one; two]
               [three; three; three] (Z.to_nat 3))
  /\ chi2_ascending_sum [three; three; two] [one; one; two] [three; three; three] 0
     = zero
  /\ forall k v s b,
       [three; three; two] !! k = Some v -> [one; one; two] !! k = Some s ->
       [three; three; three] !! k = Some b ->
       chi2_ascending_sum [three; three; two] [one; one; two] [three; three; three] (S k)
       = add (chi2_ascending_sum [three; three; two] [one; one; two]
                [three; three; three] k)
             (square (div (sub v b) s)).
Proof.
  assert (Hn : 1 <= 3) by lia.
  assert (Hsd : Forall (fun s => is_nonzero s = true) [one; one; two])
    by (repeat constructor).
  split; [exact Hn|]. do 3 (split; [reflexivity|]). split; [exact Hsd|].
  exact (chi2_is_ascending_sum [three; three; two] [one; one; two]
           [three; three; three] 3 Hn eq_refl eq_refl eq_refl Hsd).
Defined.

(** The sum on these three points is 0.25. *)
Example chi2_demo :
  chi2 [three; three; two] [one; one; two] [three; three; three] 3 = Some quarter.
Proof. vm_compute. reflexivity. Qed.

(** The order written out on three points. *)
Example chi2_three_points v0 v1 v2 s0 s1 s2 b0 b1 b2 :
  chi2 [v0; v1; v2] [s0; s1; s2] [b0; b1; b2] 3
  = Some (add (add (add zero (square (div (sub v0 b0) s0)))
                   (square (div (sub v1 b1) s1)))
              (square (div (sub v2 b2) s2))).
Proof. reflexivity. Qed.




(** The stand-ins of [run_func] have no part in it: so it goes with any
    [exp] for which [exp(-0) = 1], as C requires, and any "f" conversion. *)
Lemma underflow_for_any_exp exp as_float_format :
  exp (S754_zero true) = one ->
  exists g',
    func exp as_float_format session_tiny [zero; zero]
    = Some (g', Py_BuildValue_f as_float_format zero)
    /\ take 1 (back_calc g') = [zero]
    /\ values g' = [tiny].
Proof.
  intros Hexp. eexists.
  unfold func, for_int, session_tiny, constructed. simpl.
  unfold exponential, for_int. simpl. rewrite Hexp. simpl.
  vm_compute. done.
Qed.

(** An exact fit: the three intensities are 3, the parameters back-calculate
    3, and the sum is 0. *)
Example func_exact_fit :
  snd <$> run_func
            (constructed (fun _ => one) (initial_globals 8)
               (SetupArgs 2 3 [three; three; three] [one; one; two]
                  [zero; zero; zero] [one; two]))
            [three; one]
  = Some (Ptr (PyFloat zero)).
Proof. vm_compute. reflexivity. Qed.

(** *** The gradient and the Hessian *)

(** C3 (the code's behaviour): whatever the session and the parameter
    vector, [dfunc] either runs into an access outside an array or returns
    NULL, the failure value, and the parameter vector has no part in the
    outcome. No gradient is computed. *)
Theorem dfunc_returns_NULL exp wild g raw :
  (dfunc exp wild g raw = None \/ exists g', dfunc exp wild g raw = Some (g', NULL))
  /\ dfunc exp wild g raw = dfunc exp wild g [].
Proof.
  unfold dfunc. split; [|done].
  destruct (exponential exp wild (relax_times g) (back_calc g) (num_times g)) as [bc|];
    simpl; eauto.
Qed.

(** On the demonstration session: NULL when the stray pointer happens to
    address two doubles, an undefined access when it addresses nothing. *)
Example dfunc_demo :
  snd <$> dfunc exp_at_zero [three; two] session_demo [three; one] = Some NULL
  /\ dfunc exp_at_zero [] session_demo [three; one] = None.
Proof. vm_compute. done. Qed.

(** C7 (the code's behaviour): whatever the session and the arguments,
    [d2func] returns one Python float, built from the constant 0.0, and
    leaves the variables alone. No matrix is built. *)
Theorem d2func_returns_float_zero as_float_format g args :
  d2func as_float_format g args = Some (g, Ptr (PyFloat (as_float_format zero)))
  /\ forall rows, d2func as_float_format g args <> Some (g, Ptr (PyList rows)).
Proof. split; [reflexivity|]. intros rows. unfold d2func, Py_BuildValue_f. congruence. Qed.

(** *** Construction *)

(** C4 (as the code has it): [setup] looks at no value. Whatever it is
    given it returns [Py_None], never a failure, and every element it copies
    from [sd], [values], [relax_times] and [scaling_matrix] is stored as it
    came, be it zero, negative, infinite or a NaN. A zero among the copied
    standard deviations is then divided by: every evaluation of the session
    returns, through the "f" conversion, an infinity or a NaN. *)
Theorem setup_stores_unvalidated heap_junk g a :
  exists g',
    setup heap_junk g a = Some (g', Ptr Py_None)
    /\ (forall i x, (i < Z.to_nat (num_times_arg a))%nat ->
          sd_arg a !! i = Some x -> sd g' !! i = Some x)
    /\ (forall i x, (i < Z.to_nat (num_times_arg a))%nat ->
          values_arg a !! i = Some x -> values g' !! i = Some x)
    /\ (forall i x, (i < Z.to_nat (num_times_arg a))%nat ->
          relax_times_arg a !! i = Some x -> relax_times g' !! i = Some x)
    /\ (forall i x, (i < Z.to_nat (num_params_arg a))%nat ->
          scaling_matrix_arg a !! i = Some x -> scaling_matrix g' !! i = Some x)
    /\ (forall exp as_float_format raw i z,
          session_ok g' -> length raw = Z.to_nat (num_params g') ->
          (i < Z.to_nat (num_times_arg a))%nat ->
          sd_arg a !! i = Some z -> is_nonzero z = false ->
          exists g'' c,
            func exp as_float_format g' raw
            = Some (g'', Py_BuildValue_f as_float_format c)
            /\ is_finite c = false).
Proof.
  exists (constructed heap_junk g a). split; [apply setup_constructed|].
  assert (Hcopied : forall n arg i x, (i < Z.to_nat n)%nat ->
            arg !! i = Some x -> copied n arg !! i = Some x).
  { intros n arg i x Hi Hx. rewrite lookup_copied by done.
    unfold PySequence_GetItem. by rewrite Hx. }
  split_and!; try (intros i x Hi Hx; simpl; by apply Hcopied).
  intros exp as_float_format raw i z Hok Hraw Hi Hz Hzero.
  destruct (func_evaluated exp as_float_format _ raw Hok Hraw) as (_ & _ & Hfunc).
  pose proof (evaluated_session_ok exp _ raw Hok Hraw) as Hok'.
  eexists _, _. split; [exact Hfunc|].
  destruct Hok, Hok'. simpl in *.
  eapply (chi2_ascending_sum_zero_sd _ _ _ _ i z); try lia; [|done].
  by apply Hcopied.
Qed.

(** C4 as stated fails: a standard deviation of 0 is accepted, and the
    evaluation that follows divides by it and returns an infinity; a NaN
    among the intensities is accepted, and the evaluation returns a NaN. *)
Lemma setup_accepts_zero_sd :
  run_setup (initial_globals 8) args_zero_sd = Some (session_zero_sd, Ptr Py_None)
  /\ sd session_zero_sd = [zero]
  /\ snd <$> run_func session_zero_sd [zero; zero] = Some (Ptr (PyFloat infinity))
  /\ run_setup (initial_globals 8) args_nan = Some (session_nan, Ptr Py_None)
  /\ values session_nan = [nan]
  /\ snd <$> run_func session_nan [zero; zero] = Some (Ptr (PyFloat nan)).
Proof. vm_compute. done. Qed.

(** C5 (as the code has it): [setup] compares no length with a count. When
    every sequence has at least as many elements as its count, [setup]
    returns [Py_None] and stores the counts and the first [num_times]
    elements of [values], [sd] and [relax_times] and the first [num_params]
    elements of [scaling_matrix]; the elements beyond the counts are
    dropped. *)
Theorem setup_copies_prefixes heap_junk g a :
  args_cover_counts a ->
  exists g',
    setup heap_junk g a = Some (g', Ptr Py_None)
    /\ num_params g' = num_params_arg a
    /\ num_times g' = num_times_arg a
    /\ values g' = take (Z.to_nat (num_times_arg a)) (values_arg a)
    /\ sd g' = take (Z.to_nat (num_times_arg a)) (sd_arg a)
    /\ relax_times g' = take (Z.to_nat (num_times_arg a)) (relax_times_arg a)
    /\ scaling_matrix g' = take (Z.to_nat (num_params_arg a)) (scaling_matrix_arg a).
Proof.
  intros []. exists (constructed heap_junk g a).
  split; [apply setup_constructed|]. simpl. by rewrite !copied_take.
Qed.

Lemma setup_copies_prefixes_witness :
  args_cover_counts args_surplus
  /\ exists g',
       run_setup (initial_globals 8) args_surplus = Some (g', Ptr Py_None)
       /\ num_params g' = num_params_arg args_surplus
       /\ num_times g' = num_times_arg args_surplus
       /\ values g' = take (Z.to_nat (num_times_arg args_surplus)) (values_arg args_surplus)
       /\ sd g' = take (Z.to_nat (num_times_arg args_surplus)) (sd_arg args_surplus)
       /\ relax_times g'
          = take (Z.to_nat (num_times_arg args_surplus)) (relax_times_arg args_surplus)
       /\ scaling_matrix g'
          = take (Z.to_nat (num_params_arg args_surplus)) (scaling_matrix_arg args_surplus).
Proof.
  assert (Hcover : args_cover_counts args_surplus) by by_computation.
  split; [exact Hcover|].
  exact (setup_copies_prefixes (fun _ => one) (initial_globals 8) args_surplus Hcover).
Defined.

(** C5 as stated fails: with a count of two time points and sequences of
    three, [setup] returns [Py_None] and keeps the first two elements of
    each. *)
Lemma setup_ignores_surplus :
  length (values_arg args_surplus) = 3%nat
  /\ num_times_arg args_surplus = 2
  /\ exists g',
       run_setup (initial_globals 8) args_surplus = Some (g', Ptr Py_None)
       /\ values g' = [three; three]
       /\ sd g' = [one; one]
       /\ relax_times g' = [zero; zero].
Proof. split; [done|]. split; [done|]. eexists. vm_compute. done. Qed.



(** *** Retrieval *)

(** C6 (as the code has it): [back_calc_I] keeps no record of whether
    [func] has run and never fails for want of an evaluation. On a
    well-formed session it returns a new list of [num_times] Python floats,
    the first [num_times] cells of [back_calc] as they are at the time of
    the call; after a call of [func] these are the intensities that its call
    of [exponential] wrote. *)
Theorem back_calc_I_returns_buffer exp as_float_format g raw :
  session_ok g -> length raw = Z.to_nat (num_params g) ->
  back_calc_I as_float_format g
  = Some (g, Ptr (PyList (Py_BuildValue_f as_float_format
                            <$> take (Z.to_nat (num_times g)) (back_calc g))))
  /\ exists g' r bc,
       func exp as_float_format g raw = Some (g', r)
       /\ exponential exp (zip_with mul raw (scaling_matrix g)) (relax_times g)
            (back_calc g) (num_times g) = Some bc
       /\ back_calc_I as_float_format g'
          = Some (g', Ptr (PyList (Py_BuildValue_f as_float_format
                                     <$> take (Z.to_nat (num_times g)) bc)))
       /\ length (take (Z.to_nat (num_times g)) bc) = Z.to_nat (num_times g).
Proof.
  intros Hok Hraw.
  destruct (func_evaluated exp as_float_format g raw Hok Hraw) as (Hexp & _ & Hfunc).
  pose proof (evaluated_session_ok exp g raw Hok Hraw) as Hok'.
  split.
  - destruct Hok. by apply back_calc_I_list.
  - eexists _, _, _. split; [exact Hfunc|]. split; [exact Hexp|].
    destruct Hok'. split.
    + by apply (back_calc_I_list as_float_format (evaluated exp g raw)).
    + rewrite length_take. simpl in *. lia.
Qed.

Lemma back_calc_I_returns_buffer_witness :
  session_ok session_demo
  /\ length [three; one] = Z.to_nat (num_params session_demo)
  /\ run_back_calc_I session_demo
     = Some (session_demo,
             Ptr (PyList ((fun x => Ptr (PyFloat x))
                            <$> take (Z.to_nat (num_times session_demo))
                                  (back_calc session_demo))))
  /\ exists g' r bc,
       run_func session_demo [three; one] = Some (g', r)
       /\ exponential exp_at_zero
            (zip_with mul [three; one] (scaling_matrix session_demo))
            (relax_times session_demo) (back_calc session_demo)
            (num_times session_demo) = Some bc
       /\ run_back_calc_I g'
          = Some (g', Ptr (PyList ((fun x => Ptr (PyFloat x))
                                     <$> take (Z.to_nat (num_times session_demo)) bc)))
       /\ length (take (Z.to_nat (num_times session_demo)) bc)
          = Z.to_nat (num_times session_demo).
Proof.
  assert (Hok : session_ok session_demo) by by_computation.
  assert (Hlen : length [three; one] = Z.to_nat (num_params session_demo))
    by reflexivity.
  split; [exact Hok|]. split; [exact Hlen|].
  exact (back_calc_I_returns_buffer exp_at_zero (fun x => x) session_demo
           [three; one] Hok Hlen).
Defined.

(** C6 as stated fails: straight after [setup], with no call of [func],
    [back_calc_I] returns a list, the three zeros that [back_calc] holds
    since the module was loaded, not a failure. *)
Lemma back_calc_I_before_func :
  run_setup (initial_globals 8) args_demo = Some (session_demo, Ptr Py_None)
  /\ run_back_calc_I session_demo
     = Some (session_demo,
             Ptr (PyList [Ptr (PyFloat zero); Ptr (PyFloat zero); Ptr (PyFloat zero)])).
Proof. vm_compute. done. Qed.

(** After an evaluation the list holds the back-calculated intensities. *)
Example back_calc_I_after_func :
  (g ← fst <$> run_func session_demo [three; one]; snd <$> run_back_calc_I g)
  = Some (Ptr (PyList [Ptr (PyFloat three); Ptr (PyFloat three); Ptr (PyFloat three)])).
Proof. vm_compute. reflexivity. Qed.

(** ** Further lemmas on loops *)

Section LoopsFurther.
Context {St : Type}.
Implicit Types (body : nat -> St -> option St) (s : St).

(** Two bodies that agree on the indices of the loop run the same loop. *)
Lemma for_loop_ext n i body body' s :
  (forall j t, (i <= j < i + n)%nat -> body j t = body' j t) ->
  for_loop n i body s = for_loop n i body' s.
Proof.
  revert i s. induction n as [|n IH]; intros i s Hext; [done|].
  rewrite !for_loop_succ, Hext by lia.
  destruct (body' i s) as [t|]; simpl; [|done].
  apply IH. intros j u Hj. apply Hext. lia.
Qed.

(** What every step that succeeds keeps, a loop that ends has kept. *)
Lemma for_loop_preserves (Inv : nat -> St -> Prop) n i body s s' :
  for_loop n i body s = Some s' ->
  Inv i s ->
  (forall j t t', (i <= j < i + n)%nat -> body j t = Some t' -> Inv j t -> Inv (S j) t') ->
  Inv (i + n)%nat s'.
Proof.
  revert i s. induction n as [|n IH]; intros i s Hrun Hi Hstep.
  - injection Hrun as <-. by rewrite Nat.add_0_r.
  - rewrite for_loop_succ in Hrun.
    destruct (body i s) as [t|] eqn:Ht; simpl in Hrun; [|done].
    replace (i + S n)%nat with (S i + n)%nat by lia.
    apply (IH (S i) t); [done | |].
    + apply (Hstep i s t); [lia | done | done].
    + intros j u u' Hj. apply Hstep. lia.
Qed.

(** A loop that passes an index at which the body stops whatever the state
    stops too. *)
Lemma for_loop_stops n i body s k :
  (i <= k < i + n)%nat -> (forall t, body k t = None) ->
  for_loop n i body s = None.
Proof.
  revert i s. induction n as [|n IH]; intros i s Hk Hnone; [lia|].
  rewrite for_loop_succ.
  destruct (decide (k = i)) as [->|Hne]; [by rewrite Hnone|].
  destruct (body i s) as [t|]; simpl; [|done].
  apply IH; [lia | done].
Qed.

End LoopsFurther.

Lemma store_length a i v a' : store a i v = Some a' -> length a' = length a.
Proof.
  unfold store. case_decide; [|done]. intros [= <-]. apply length_insert.
Qed.

Lemma store_lookup_ne a i v a' k :
  store a i v = Some a' -> k <> i -> a' !! k = a !! k.
Proof.
  unfold store. case_decide; [|done]. intros [= <-] Hk.
  by apply list_lookup_insert_ne.
Qed.

(** Element by element, what the copy loops store is the padded prefix. *)
Lemma copied_padded n arg : copied n arg = padded (Z.to_nat n) arg.
Proof.
  unfold padded. apply list_eq. intros j.
  destruct (decide (j < Z.to_nat n)%nat) as [Hj|Hj].
  - rewrite lookup_copied by done. unfold PySequence_GetItem.
    destruct (decide (j < length arg)%nat) as [Hin|Hout].
    + rewrite lookup_app_l by (rewrite length_take; lia).
      rewrite lookup_take_lt by done.
      destruct (lookup_lt_is_Some_2 arg j) as [x ->]; done.
    + rewrite (proj2 (lookup_ge_None arg j)) by lia. simpl.
      rewrite lookup_app_r by (rewrite length_take; lia).
      rewrite length_take. symmetry. apply lookup_replicate_2. lia.
  - transitivity (@None double).
    + apply lookup_ge_None. rewrite length_copied. lia.
    + symmetry. apply lookup_ge_None.
      rewrite length_app, length_take, length_replicate. lia.
Qed.

(** ** Further lemmas on the entry points *)

Lemma length_padded n arg : length (padded n arg) = n.
Proof. unfold padded. rewrite length_app, length_take, length_replicate. lia. Qed.

Lemma same_problem_refl g : same_problem g g.
Proof. by split. Qed.

Lemma scale_param_same_problem raw j g t t' :
  scale_param raw j t = Some t' -> same_problem g t -> same_problem g t'.
Proof.
  unfold scale_param. intros Hstep [].
  destruct (store (params t) j _) as [a1|] eqn:H1; simpl in Hstep; [|done].
  destruct (load a1 j) as [p|]; simpl in Hstep; [|done].
  destruct (load (scaling_matrix t) j) as [k|]; simpl in Hstep; [|done].
  destruct (store a1 j (mul p k)) as [a2|] eqn:H2; simpl in Hstep; [|done].
  injection Hstep as <-. apply store_length in H1, H2.
  split; simpl; congruence.
Qed.

Section EntryPointsFurther.
Variable exp : double -> double.
Variable as_float_format : double -> double.

(** Whatever the array [ps] it reads the parameters from, [exponential],
    when it ends, has kept the length of [back_calc] and every cell from
    index [num_times] on. *)
Lemma exponential_frame ps times bc n bc' :
  exponential exp ps times bc n = Some bc' ->
  length bc' = length bc /\ drop (Z.to_nat n) bc' = drop (Z.to_nat n) bc.
Proof.
  unfold exponential, for_int. intros Hrun.
  apply (for_loop_preserves
           (fun j b => length b = length bc
                       /\ forall k, (j <= k)%nat -> b !! k = bc !! k)) in Hrun.
  - destruct Hrun as [Hlen Hrest]. split; [done|].
    apply list_eq. intros k. rewrite !lookup_drop. apply Hrest. lia.
  - done.
  - intros j b b' _ Hstep [Hlen Hrest].
    destruct (load ps 0) as [p0|]; simpl in Hstep; [|done].
    destruct (load ps 1) as [p1|]; simpl in Hstep; [|done].
    destruct (load times j) as [t|]; simpl in Hstep; [|done].
    split.
    + apply store_length in Hstep. congruence.
    + intros k Hk. rewrite (store_lookup_ne _ _ _ _ k Hstep) by lia.
      apply Hrest. lia.
Qed.

(** An evaluation after an evaluation is the evaluation alone. *)
Lemma func_after_evaluated g raw raw' :
  session_ok g -> length raw = Z.to_nat (num_params g) ->
  length raw' = Z.to_nat (num_params g) ->
  func exp as_float_format (evaluated exp g raw) raw' = func exp as_float_format g raw'.
Proof.
  intros Hok Hraw Hraw'.
  pose proof (evaluated_session_ok exp g raw Hok Hraw) as Hok'.
  destruct (func_evaluated exp as_float_format (evaluated exp g raw) raw' Hok' Hraw')
    as (_ & _ & ->).
  destruct (func_evaluated exp as_float_format g raw' Hok Hraw') as (_ & _ & ->).
  by rewrite evaluated_again.
Qed.

(** The first loop of [func] sees its argument through the first
    [num_params] elements, -1.0 standing for a missing one. *)
Lemma scale_params_padded g raw :
  for_int (num_params g) (scale_param raw) g
  = for_int (num_params g) (scale_param (padded (Z.to_nat (num_params g)) raw)) g.
Proof.
  unfold for_int. apply for_loop_ext.
  intros j t Hj. unfold scale_param, PySequence_GetItem.
  rewrite <- copied_padded, lookup_copied by lia. done.
Qed.

(** Past the end of [back_calc] the loop of [back_calc_I] reads outside the
    array. *)
Lemma back_calc_I_overrun g :
  0 <= num_times g -> (length (back_calc g) < Z.to_nat (num_times g))%nat ->
  back_calc_I as_float_format g = None.
Proof.
  intros Hn Hlen. unfold back_calc_I, for_int.
  rewrite (for_loop_stops _ _ _ _ (length (back_calc g))); [done | lia |].
  intros l. unfold load. by rewrite (proj2 (lookup_ge_None _ _)) by lia.
Qed.

End EntryPointsFurther.

(** ** Further properties of the entry points *)

(** *** Construction *)

(** X1: a sequence shorter than its count does not stop [setup]. Each array
    receives the elements that the sequence has, followed by -1.0 for every
    element it lacks, so that it always holds as many cells as the count
    announces, and [setup] still returns [Py_None]. *)
Theorem setup_pads_short_sequences heap_junk g a :
  exists g',
    setup heap_junk g a = Some (g', Ptr Py_None)
    /\ values g' = padded (Z.to_nat (num_times_arg a)) (values_arg a)
    /\ sd g' = padded (Z.to_nat (num_times_arg a)) (sd_arg a)
    /\ relax_times g' = padded (Z.to_nat (num_times_arg a)) (relax_times_arg a)
    /\ scaling_matrix g'
       = padded (Z.to_nat (num_params_arg a)) (scaling_matrix_arg a)
    /\ length (params g') = Z.to_nat (num_params g')
    /\ length (values g') = Z.to_nat (num_times g')
    /\ length (sd g') = Z.to_nat (num_times g')
    /\ length (relax_times g') = Z.to_nat (num_times g')
    /\ length (scaling_matrix g') = Z.to_nat (num_params g').
Proof.
  exists (constructed heap_junk g a). split; [apply setup_constructed|].
  simpl. rewrite <- !copied_padded, !length_copied, length_malloc. done.
Qed.

(** Three time points announced and two intensities given: the third cell
    holds -1.0. *)
Example setup_short_demo :
  exists g',
    run_setup (initial_globals 8) args_short = Some (g', Ptr Py_None)
    /\ values g' = [three; two; minus_one]
    /\ sd g' = [one; two; minus_one]
    /\ relax_times g' = [zero; zero; minus_one]
    /\ scaling_matrix g' = [two; minus_one].
Proof. eexists. vm_compute. done. Qed.

(** X5: [setup] neither clears nor resizes [back_calc]. Straight after a
    [setup] that announces [num_times] time points, [back_calc_I] returns
    NULL when [num_times] is negative, the first [num_times] cells that
    [back_calc] held before that [setup] when the array has that many, and
    reads outside the array when it has fewer. *)
Theorem setup_keeps_back_calc heap_junk as_float_format g a :
  (g' ← fst <$> setup heap_junk g a; snd <$> back_calc_I as_float_format g')
  = if num_times_arg a <? 0 then Some NULL
    else if (Z.to_nat (num_times_arg a) <=? length (back_calc g))%nat
         then Some (Ptr (PyList (Py_BuildValue_f as_float_format
                                   <$> take (Z.to_nat (num_times_arg a)) (back_calc g))))
         else None.
Proof.
  rewrite setup_constructed. simpl.
  destruct (Z.ltb_spec (num_times_arg a) 0) as [Hneg|Hpos].
  - by rewrite back_calc_I_negative.
  - destruct (Nat.leb_spec (Z.to_nat (num_times_arg a)) (length (back_calc g)))
      as [Hfits|Hover].
    + by rewrite back_calc_I_list.
    + by rewrite back_calc_I_overrun.
Qed.

(** After the demonstration problem has been evaluated, a second problem of
    one time point is set up: [back_calc_I] returns the first intensity of
    the evaluation before. *)
Example stale_intensity_demo :
  (g ← fst <$> run_func session_demo [three; one];
   g ← fst <$> run_setup g args_other;
   snd <$> run_back_calc_I g)
  = Some (Ptr (PyList [Ptr (PyFloat three)])).
Proof. vm_compute. reflexivity. Qed.

(** *** The objective *)

(** X2: [func] reads the first [num_params] elements of its argument and
    nothing else: elements beyond them are ignored, and one that is missing
    is read as -1.0. *)
Theorem func_reads_num_params_elements exp as_float_format g raw :
  func exp as_float_format g raw
  = func exp as_float_format g (padded (Z.to_nat (num_params g)) raw).
Proof. unfold func. by rewrite scale_params_padded. Qed.

(** The parameter vectors [3; 1; 2], [3; 1] and [3] against two
    parameters: the first is read as [3; 1], the last as [3; -1]. *)
Example func_argument_length_demo :
  run_func session_demo [three; one; two] = run_func session_demo [three; one]
  /\ run_func session_demo [three] = run_func session_demo [three; minus_one].
Proof. vm_compute. done. Qed.

(** X3: whenever [func] returns, on any variables and any argument, it has
    returned a Python float, never NULL, and it has written nothing but the
    cells of [params] and [back_calc]: the counts and [values], [sd],
    [relax_times] and [scaling_matrix] are as they were, and no array has
    changed its length. *)
Theorem func_keeps_problem exp as_float_format g raw g' r :
  func exp as_float_format g raw = Some (g', r) ->
  same_problem g g' /\ exists d, r = Ptr (PyFloat d).
Proof.
  unfold func, for_int. intros Hrun.
  destruct (for_loop _ 0 (scale_param raw) g) as [g1|] eqn:Hloop;
    simpl in Hrun; [|done].
  destruct (exponential exp (params g1) (relax_times g1) (back_calc g1) (num_times g1))
    as [bc|] eqn:Hexp; simpl in Hrun; [|done].
  destruct (chi2 (values g1) (sd g1) bc (num_times g1)) as [c|];
    simpl in Hrun; [|done].
  injection Hrun as <- <-.
  apply (for_loop_preserves (fun _ t => same_problem g t)) in Hloop;
    [| apply same_problem_refl
     | intros j t t' _ Hstep Hinv;
       exact (scale_param_same_problem _ _ _ _ _ Hstep Hinv)].
  apply exponential_frame in Hexp as [Hlen _].
  destruct Hloop. split; [|by eexists].
  split; simpl; congruence.
Qed.

Lemma func_keeps_problem_witness :
  run_func session_demo [three; one]
  = Some (evaluated exp_at_zero session_demo [three; one], Ptr (PyFloat quarter))
  /\ same_problem session_demo (evaluated exp_at_zero session_demo [three; one])
  /\ exists d, Ptr (PyFloat quarter) = Ptr (PyFloat d).
Proof.
  assert (Hrun : run_func session_demo [three; one]
                 = Some (evaluated exp_at_zero session_demo [three; one],
                         Ptr (PyFloat quarter)))
    by (vm_compute; reflexivity).
  split; [exact Hrun|].
  exact (func_keeps_problem exp_at_zero (fun x => x) session_demo [three; one]
           _ _ Hrun).
Defined.

(** X6: on a well-formed session, after any run of evaluations on
    parameter vectors of [num_params] elements, [func] returns for a
    parameter vector what it returns for it on the session as [setup] left
    it, and leaves the same variables: an evaluation depends on the latest
    [setup] and on its own argument, not on the evaluations before it. *)
Theorem func_after_evaluations exp as_float_format g raws raw :
  session_ok g ->
  Forall (fun r => length r = Z.to_nat (num_params g)) raws ->
  length raw = Z.to_nat (num_params g) ->
  (g' ← evaluate_each exp as_float_format g raws; func exp as_float_format g' raw)
  = func exp as_float_format g raw.
Proof.
  intros Hok Hraws Hraw.
  enough (Hgen : forall h, session_ok h -> num_params h = num_params g ->
            (forall r, length r = Z.to_nat (num_params g) ->
               func exp as_float_format h r = func exp as_float_format g r) ->
            (g' ← evaluate_each exp as_float_format h raws;
             func exp as_float_format g' raw) = func exp as_float_format g raw)
    by (by apply Hgen).
  induction Hraws as [|r0 rest Hr0 _ IH]; intros h Hh Hnp Hsame; simpl.
  - by apply Hsame.
  - assert (Hr0' : length r0 = Z.to_nat (num_params h)) by congruence.
    destruct (func_evaluated exp as_float_format h r0 Hh Hr0') as (_ & _ & ->).
    simpl. apply IH.
    + by apply evaluated_session_ok.
    + done.
    + intros r Hr. rewrite func_after_evaluated by congruence. by apply Hsame.
Qed.

Lemma func_after_evaluations_witness :
  session_ok session_demo
  /\ Forall (fun r => length r = Z.to_nat (num_params session_demo))
       [[three; one]; [one; two]]
  /\ length [two; three] = Z.to_nat (num_params session_demo)
  /\ (g' ← evaluate_each exp_at_zero (fun x => x) session_demo
              [[three; one]; [one; two]];
      run_func g' [two; three])
     = run_func session_demo [two; three].
Proof.
  assert (Hok : session_ok session_demo) by by_computation.
  assert (Hraws : Forall (fun r => length r = Z.to_nat (num_params session_demo))
                    [[three; one]; [one; two]]) by (repeat constructor).
  assert (Hraw : length [two; three] = Z.to_nat (num_params session_demo))
    by reflexivity.
  split; [exact Hok|]. split; [exact Hraws|]. split; [exact Hraw|].
  exact (func_after_evaluations exp_at_zero (fun x => x) session_demo
           [[three; one]; [one; two]] [two; three] Hok Hraws Hraw).
Defined.

(** X8: after a [setup] that announces at least two parameters and a
    number of time points, not negative, that [back_calc] has cells for,
    [func] accesses no array outside its bounds and returns a Python float,
    whatever the lengths of the sequences given to [setup] and of the
    parameter vector given to [func]. *)
Theorem func_defined_after_setup exp as_float_format heap_junk g a raw :
  2 <= num_params_arg a -> 0 <= num_times_arg a ->
  (Z.to_nat (num_times_arg a) <= length (back_calc g))%nat ->
  exists g' d,
    (g1 ← fst <$> setup heap_junk g a; func exp as_float_format g1 raw)
    = Some (g', Ptr (PyFloat d))
    /\ same_problem (constructed heap_junk g a) g'.
Proof.
  intros Hnp Hnt Hfits. rewrite setup_constructed. simpl.
  pose proof (constructed_session_ok heap_junk g a Hnp Hnt Hfits) as Hok.
  set (g1 := constructed heap_junk g a) in *.
  assert (Hlen : length (padded (Z.to_nat (num_params g1)) raw)
                 = Z.to_nat (num_params g1)) by apply length_padded.
  destruct (func_evaluated exp as_float_format g1 _ Hok Hlen) as (_ & _ & Hfunc).
  pose proof (evaluated_session_ok exp g1 _ Hok Hlen) as Hok'.
  unfold func in *. rewrite scale_params_padded, Hfunc.
  eexists _, _. split; [reflexivity|].
  split; try reflexivity.
  - rewrite (ok_params _ Hok'), (ok_params _ Hok). reflexivity.
  - destruct Hok. simpl. rewrite length_app, length_take, length_drop.
    unfold exponential_curve. rewrite length_fmap, length_copied. lia.
Qed.

Lemma func_defined_after_setup_witness :
  2 <= num_params_arg args_short
  /\ 0 <= num_times_arg args_short
  /\ (Z.to_nat (num_times_arg args_short) <= length (back_calc (initial_globals 8)))%nat
  /\ exists g' d,
       (g1 ← fst <$> run_setup (initial_globals 8) args_short; run_func g1 [three])
       = Some (g', Ptr (PyFloat d))
       /\ same_problem (constructed (fun _ => one) (initial_globals 8) args_short) g'.
Proof.
  assert (Hnp : 2 <= num_params_arg args_short) by (vm_compute; done).
  assert (Hnt : 0 <= num_times_arg args_short) by (vm_compute; done).
  assert (Hfits : (Z.to_nat (num_times_arg args_short)
                   <= length (back_calc (initial_globals 8)))%nat)
    by (vm_compute; lia).
  split; [exact Hnp|]. split; [exact Hnt|]. split; [exact Hfits|].
  exact (func_defined_after_setup exp_at_zero (fun x => x) (fun _ => one)
           (initial_globals 8) args_short [three] Hnp Hnt Hfits).
Defined.

(** *** The gradient *)

(** X7: a call of [dfunc] that ends, whatever its stray pointer addresses,
    has returned NULL and written nothing but cells of [back_calc]; on a
    well-formed session every later call of [func] returns what it would
    have returned without it. *)
Theorem dfunc_leaves_evaluation_alone exp as_float_format wild g raw g' r raw' :
  session_ok g -> length raw' = Z.to_nat (num_params g) ->
  dfunc exp wild g raw = Some (g', r) ->
  r = NULL
  /\ same_problem g g'
  /\ params g' = params g
  /\ func exp as_float_format g' raw' = func exp as_float_format g raw'.
Proof.
  intros Hok Hraw'. unfold dfunc. intros Hrun.
  destruct (exponential exp wild (relax_times g) (back_calc g) (num_times g))
    as [bc|] eqn:Hexp; simpl in Hrun; [|done].
  injection Hrun as <- <-.
  apply exponential_frame in Hexp as [Hlen Hdrop].
  assert (Hok' : session_ok (set_back_calc g bc)).
  { destruct Hok. split; simpl; try done. lia. }
  split_and!; [done | by split | done |].
  destruct (func_evaluated exp as_float_format _ raw' Hok' Hraw') as (_ & _ & ->).
  destruct (func_evaluated exp as_float_format g raw' Hok Hraw') as (_ & _ & ->).
  assert (Heval : evaluated exp (set_back_calc g bc) raw' = evaluated exp g raw').
  { unfold evaluated, set_back_calc, set_params. simpl. by rewrite Hdrop. }
  by rewrite Heval.
Qed.

Lemma dfunc_leaves_evaluation_alone_witness :
  session_ok session_demo
  /\ length [two; three] = Z.to_nat (num_params session_demo)
  /\ dfunc exp_at_zero [three; two] session_demo [three; one]
     = Some (session_after_dfunc, NULL)
  /\ NULL = NULL
  /\ same_problem session_demo session_after_dfunc
  /\ params session_after_dfunc = params session_demo
  /\ run_func session_after_dfunc [two; three] = run_func session_demo [two; three].
Proof.
  assert (Hok : session_ok session_demo) by by_computation.
  assert (Hraw : length [two; three] = Z.to_nat (num_params session_demo))
    by reflexivity.
  assert (Hrun : dfunc exp_at_zero [three; two] session_demo [three; one]
                 = Some (session_after_dfunc, NULL)) by (vm_compute; reflexivity).
  split; [exact Hok|]. split; [exact Hraw|]. split; [exact Hrun|].
  exact (dfunc_leaves_evaluation_alone exp_at_zero (fun x => x) [three; two]
           session_demo [three; one] session_after_dfunc NULL [two; three]
           Hok Hraw Hrun).
Defined.

(** *** Retrieval *)

(** X4: [back_calc_I] on any variables. A negative [num_times] gives NULL
    and no list; a [num_times] that [back_calc] has cells for gives a list
    of that many Python floats, no slot left NULL; a larger one reads
    outside the array. In no case are the variables written. *)
Theorem back_calc_I_cases as_float_format g :
  back_calc_I as_float_format g
  = if num_times g <? 0 then Some (g, NULL)
    else if (Z.to_nat (num_times g) <=? length (back_calc g))%nat
         then Some (g, Ptr (PyList (Py_BuildValue_f as_float_format
                                      <$> take (Z.to_nat (num_times g)) (back_calc g))))
         else None.
Proof.
  destruct (Z.ltb_spec (num_times g) 0) as [Hneg|Hpos].
  - by apply back_calc_I_negative.
  - destruct (Nat.leb_spec (Z.to_nat (num_times g)) (length (back_calc g)))
      as [Hfits|Hover].
    + by apply back_calc_I_list.
    + by apply back_calc_I_overrun.
Qed.

(** Nine time points against a [back_calc] of eight cells, and a count of
    -1. *)
Example back_calc_I_bounds_demo :
  run_back_calc_I (Globals 2 9 [] [] [] [] [] (replicate 8 zero)) = None
  /\ snd <$> run_back_calc_I (Globals 2 (-1) [] [] [] [] [] (replicate 8 zero))
     = Some NULL.
Proof. vm_compute. done. Qed.
